(** * Verification of [patch_session]

    A shallow embedding of
    [agents-api/agents_api/models/session/patch_session.py]: the function
    that compiles a partial update of a session into an ordered list of
    CozoScript statements with their bound parameters, the row projection
    handed to [wrap_in_class], and the exception table handed to
    [rewrap_exceptions].

    Conventions.
    - A Python [dict] whose iteration order is observable (the dumped request:
      its order is the order of the columns of the input relation) is an
      association list with distinct keys; a [dict] that is only looked up
      (JSON objects, result rows, the bound parameters) is a [gmap].
    - A Python [set] of [str] is a [gset string]; [list(s)] goes through
      [set_order], about which only "same elements, no repetition" is assumed,
      since CPython promises nothing about the order.
    - Helpers imported from modules that are not part of the verified files
      are parameters of the development, or are modelled from the
      specification where a statement depends on what they compute. *)

From Stdlib Require Import ZArith Ascii String.
From stdpp Require Import base strings list gmap sets.

#[local] Set Warnings "-register-all,-clear-no-such-hyp".

(** ** Python values and primitives *)

Module Py.

(** JSON-like Python values, as they travel in request bodies, bound
    parameters and result rows. *)
Inductive value : Type :=
  | VNone
  | VBool (b : bool)
  | VInt (n : Z)
  | VStr (s : string)
  | VList (l : list value)
  | VDict (d : gmap string value).

(** [v is None] *)
Definition is_None (v : value) : bool :=
  match v with VNone => true | _ => false end.

(** Python truthiness, [bool(v)]. *)
Definition truthy (v : value) : bool :=
  match v with
  | VNone => false
  | VBool b => b
  | VInt n => negb (n =? 0)%Z
  | VStr s => negb (String.eqb s "")
  | VList l => match l with [] => false | _ => true end
  | VDict d => negb (bool_decide (d = ∅))
  end.

(** [a or b] *)
Definition py_or (a b : value) : value := if truthy a then a else b.

(** An insertion-ordered [dict] with [str] keys. *)
Abbreviation odict := (list (string * value)).

(** [d.get(k)], [None] of [option] standing for a missing key. *)
Fixpoint dict_get (k : string) (d : odict) : option value :=
  match d with
  | [] => None
  | (k', v) :: r => if decide (k' = k) then Some v else dict_get k r
  end.

(** [del d[k]] for a key that may be absent. *)
Fixpoint dict_del (k : string) (d : odict) : odict :=
  match d with
  | [] => []
  | (k', v) :: r => if decide (k' = k) then r else (k', v) :: dict_del k r
  end.

(** [d.pop(k, default)]: the value and the dictionary left behind. *)
Definition dict_pop (k : string) (default : value) (d : odict) : value * odict :=
  match dict_get k d with
  | Some v => (v, dict_del k d)
  | None => (default, d)
  end.

(** [{k: v for k, v in d.items() if v is not None}] *)
Definition drop_None (d : odict) : odict :=
  filter (λ kv, is_None kv.2 = false) d.

(** [sep.join(l)] *)
Definition join (sep : string) (l : list string) : string := String.concat sep l.

(** [s.split(c)] for a one-character separator [c]: never the empty list,
    and [''.split(',') == ['']]. *)
Fixpoint split (c : ascii) (s : string) : list string :=
  match s with
  | EmptyString => [EmptyString]
  | String a r =>
      if Ascii.eqb a c then EmptyString :: split c r
      else match split c r with
           | h :: t => String a h :: t
           | [] => [String a EmptyString]
           end
  end.

(** Whether the character [c] occurs in [s]. *)
Fixpoint occurs (c : ascii) (s : string) : bool :=
  match s with
  | EmptyString => false
  | String a r => Ascii.eqb a c || occurs c r
  end.

(** Exceptions: the built-in classes the modelled code can raise, the two
    library classes the exception table names, and FastAPI's
    [HTTPException]. *)
Inductive exn_class : Type :=
  | KeyError | IndexError | TypeError
  | QueryException | ValidationError
  | HTTPException.

#[global] Instance exn_class_eq_dec : EqDecision exn_class.
Proof. solve_decision. Defined.

Record exn : Type := Exn {
  exn_cls : exn_class;
  exn_status : option Z;     (* [status_code], for an [HTTPException] *)
  exn_detail : string;       (* [str(error)] *)
}.

(** The outcome of a Python call: a value, or a raised exception. *)
Inductive result (A : Type) : Type :=
  | Ok (a : A)
  | Raise (e : exn).
Arguments Ok {A} a.
Arguments Raise {A} e.


(** [v[0]]. A [string] here is a sequence of bytes: the first character
    of a text is its first byte, which is its first code point for ASCII
    text. *)
Definition subscript0 (v : value) : result value :=
  match v with
  | VList (x :: _) => Ok x
  | VList [] => Raise (Exn IndexError None "list index out of range")
  | VStr (String a _) => Ok (VStr (String a EmptyString))
  | VStr EmptyString => Raise (Exn IndexError None "string index out of range")
  | VDict _ => Raise (Exn KeyError None "0")
  | VNone => Raise (Exn TypeError None "'NoneType' object is not subscriptable")
  | VBool _ => Raise (Exn TypeError None "'bool' object is not subscriptable")
  | VInt _ => Raise (Exn TypeError None "'int' object is not subscriptable")
  end.

End Py.
Import Py.

Definition comma : ascii := ","%char.
Definition nl : string := String (ascii_of_nat 10) EmptyString.
Definition dquote : string := String (ascii_of_nat 34) EmptyString.

(** ** The row projection handed to [wrap_in_class] (lines 47-52)

    [lambda d: {"id": d["session_id"], "updated_at": d.pop("updated_at")[0],
    "jobs": [], **d}]. The entries of a dict display are evaluated left to
    right: the lookup of [session_id] first, then the [pop], which removes
    [updated_at] from the very [d] that [**d] spreads last; what [**d]
    spreads overrides the three entries written before it. *)
Definition transform (d : gmap string value) : result (gmap string value) :=
  match d !! "session_id" with
  | None => Raise (Exn KeyError None "'session_id'")
  | Some sid =>
      match d !! "updated_at" with
      | None => Raise (Exn KeyError None "'updated_at'")
      | Some u =>
          let d' := delete "updated_at" d in
          match subscript0 u with
          | Raise e => Raise e
          | Ok u0 =>
              Ok (d' ∪ {[ "id" := sid; "updated_at" := u0; "jobs" := VList [] ]})
          end
      end
  end.

(** ** The exception table handed to [rewrap_exceptions] (lines 37-43) *)

(** Modelled from the spec: [partialclass] of [..utils] is not among the
    verified files. The table maps a failure to the error the caller sees
    (4.4): [partialclass(cls, status_code=n)] is the class [cls] with its
    status preset, called on the message of the exception it replaces. *)
Definition partialclass (cls : exn_class) (status_code : Z) : string → exn :=
  λ detail, Exn cls (Some status_code) detail.

Definition exception_table : list (exn_class * (string → exn)) :=
  [ (QueryException, partialclass HTTPException 400);
    (ValidationError, partialclass HTTPException 400);
    (TypeError, partialclass HTTPException 400) ].






(** ** The store's side of the mutation statement *)

(** Modelled from the spec: the store's [concat] on two JSON objects, the
    merge strategy of the metadata column (4.2): "associative union; a key
    present in both old and new uses the new value; keys only in old are
    preserved; keys only in new are added". *)
Definition concat (md new : value) : option value :=
  match md, new with
  | VDict old, VDict patch => Some (VDict (patch ∪ old))
  | _, _ => None
  end.


(** The store is a collaborator (section 6): what one statement does to
    the database is a parameter. *)
Section Transaction.
Context {DB Rows : Type}.
Variable run_statement : string → gmap string value → DB → option (Rows * DB).

(** Modelled from the spec: the store's "run ordered statements in one
    transaction" (sections 5 and 6). The statements run in order, each on
    the state the previous one left, and the rows of the last are the
    result; a statement that fails ends the sequence. *)
Fixpoint run_statements (stmts : list string) (bound : gmap string value)
    (last : option Rows) (db : DB) : option (option Rows * DB) :=
  match stmts with
  | [] => Some (last, db)
  | q :: rest =>
      match run_statement q bound db with
      | None => None
      | Some (rows, db') => run_statements rest bound (Some rows) db'
      end
  end.

(** Modelled from the spec: "the entire sequence is rolled back and no new
    version is created" (section 5): after a failed statement the database
    is the one the transaction started from. *)
Definition run_transaction (stmts : list string) (bound : gmap string value)
    (db : DB) : option (option Rows) * DB :=
  match run_statements stmts bound None db with
  | Some (rows, db') => (Some rows, db')
  | None => (None, db)
  end.
End Transaction.

(** ** Facts about the Python primitives *)

Section PyFacts.
Implicit Types (d : odict) (k : string) (v : value) (c : ascii).

Lemma split_not_nil c (s : string) : split c s ≠ [].
Proof.
  destruct s as [|a r]; simpl; [done|].
  destruct (Ascii.eqb a c); [done|]. by destruct (split c r).
Qed.

Lemma split_no_sep c (s : string) : occurs c s = false → split c s = [s].
Proof.
  induction s as [|a r IH]; simpl; [done|].
  intros [Ha Hr]%orb_false_iff. rewrite Ha, (IH Hr). done.
Qed.

Lemma split_app_sep c (s r : string) :
  occurs c s = false → split c (s +:+ String c r) = s :: split c r.
Proof.
  induction s as [|a s IH]; simpl.
  - intros _. by rewrite Ascii.eqb_refl.
  - intros [Ha Hs]%orb_false_iff. rewrite Ha, (IH Hs). done.
Qed.

(** Splitting undoes joining, for a list that is not empty and whose
    elements hold no separator. *)
Lemma split_join c (l : list string) :
  l ≠ [] → Forall (λ s, occurs c s = false) l →
  split c (join (String c EmptyString) l) = l.
Proof.
  intros Hne Hall. induction Hall as [|x l Hx Hl IH]; [done|].
  destruct l as [|y l].
  - simpl. by apply split_no_sep.
  - change (join (String c EmptyString) (x :: y :: l))
      with (x +:+ String c (join (String c EmptyString) (y :: l))).
    rewrite split_app_sep by done. f_equal. by apply IH.
Qed.


Lemma dict_get_None d k : dict_get k d = None ↔ k ∉ d.*1.
Proof.
  induction d as [|[k' v] d IH]; simpl.
  - split; [intros _; apply not_elem_of_nil | done].
  - rewrite not_elem_of_cons. destruct (decide (k' = k)) as [->|Hne].
    + split; [done | intros [? _]; done].
    + rewrite IH. naive_solver.
Qed.

Lemma dict_del_absent d k : k ∉ d.*1 → dict_del k d = d.
Proof.
  induction d as [|[k' v] d IH]; simpl; [done|].
  rewrite not_elem_of_cons. intros [Hne Hd].
  destruct (decide (k' = k)); [congruence|]. by rewrite IH.
Qed.

(** What [pop] leaves behind is the dictionary without the key, whether the
    key was there or not. *)
Lemma dict_pop_rest d k v : (dict_pop k v d).2 = dict_del k d.
Proof.
  unfold dict_pop. destruct (dict_get k d) eqn:E; simpl; [done|].
  symmetry. by apply dict_del_absent, dict_get_None.
Qed.

Lemma dict_pop_value d k v : (dict_pop k v d).1 = default v (dict_get k d).
Proof. unfold dict_pop. by destruct (dict_get k d). Qed.

Lemma dict_del_keys d k k' : k' ∈ (dict_del k d).*1 → k' ∈ d.*1.
Proof.
  induction d as [|[k0 v] d IH]; simpl; [done|].
  destruct (decide (k0 = k)); simpl; set_solver.
Qed.

Lemma dict_del_gone d k : NoDup d.*1 → k ∉ (dict_del k d).*1.
Proof.
  induction d as [|[k0 v] d IH]; simpl; [intros _; apply not_elem_of_nil|].
  rewrite NoDup_cons. intros [Hk0 Hd].
  destruct (decide (k0 = k)) as [->|Hne]; [done|].
  simpl. rewrite not_elem_of_cons. split; [congruence | by apply IH].
Qed.

Lemma drop_None_keys d k : k ∈ (drop_None d).*1 → k ∈ d.*1.
Proof.
  unfold drop_None. rewrite !list_elem_of_fmap.
  intros [kv [-> Hkv%list_elem_of_filter]]. exists kv. naive_solver.
Qed.

Lemma drop_None_app d1 d2 : drop_None (d1 ++ d2) = drop_None d1 ++ drop_None d2.
Proof. apply filter_app. Qed.

Lemma drop_None_cons_None d k : drop_None ((k, VNone) :: d) = drop_None d.
Proof. unfold drop_None. by rewrite filter_cons_False by (simpl; congruence). Qed.

End PyFacts.

(** ** The compiler, [patch_session] *)

Section PatchSession.
#[local] Set Default Proof Using "Type".

(** [uuid.UUID] and [str(u)]. *)
Variable UUID : Type.
Variable uuid_str : UUID → string.

(** The two authorization statements, built by helpers of [..utils];
    only their results, the statement texts, are used. *)
Variable verify_developer_id_query : UUID → string.
Variable verify_developer_owns_resource_query :
  UUID → string → list (string * UUID) → string.

(** [list(s)] for a set [s] of strings. *)
Variable set_order : gset string → list string.
Hypothesis set_order_perm : ∀ s, set_order s ≡ₚ elements s.

(** [PatchSessionRequest], as [data.model_dump(exclude_unset=True)] shows it:
    the fields that were set, in declaration order, each with its value
    ([VNone] for an explicit null). *)
Definition PatchSessionRequest : Type := odict.

Definition model_dump_exclude_unset (data : PatchSessionRequest) : odict := data.

(** A dumped request is a [dict] (no key twice) whose keys are field names
    (no comma in them). *)
Definition request_wf (data : PatchSessionRequest) : Prop :=
  NoDup data.*1 ∧ Forall (λ k, occurs comma k = false) data.*1.

Definition _fields : list string :=
  ["situation"; "summary"; "created_at"; "session_id"; "developer_id"].

(** Modelled from the spec: [cozo_process_mutate_data] of
    [common/utils/cozo.py] is not among the verified files. The compiler
    "binds the supplied values as a parameterized input relation" (4.2 a):
    the first result is the comma-separated column names (the call site
    splits it on [,] and splices it into [input[...]]), the second the rows
    bound to [$session_update_vals], here the one row of the values in
    column order. *)
Definition cozo_process_mutate_data (data : odict) : string * value :=
  (join "," data.*1, VList [VList data.*2]).

(** Line 71-72: the dumped request after [update_data.pop("metadata", {})],
    and the popped value after [or {}]. *)
Definition update_data (data : PatchSessionRequest) : odict :=
  (dict_pop "metadata" (VDict ∅) (model_dump_exclude_unset data)).2.

Definition metadata (data : PatchSessionRequest) : value :=
  py_or (dict_pop "metadata" (VDict ∅) (model_dump_exclude_unset data)).1 (VDict ∅).

(** Lines 74-76. *)
Definition session_update_cols (data : PatchSessionRequest) : string :=
  (cozo_process_mutate_data (drop_None (update_data data))).1.

Definition session_update_vals (data : PatchSessionRequest) : value :=
  (cozo_process_mutate_data (drop_None (update_data data))).2.

(** Lines 79-87. [supplied] is the list comprehension of line 85 and
    [rest_fields_lst] the list that line 82 joins. *)
Definition session_update_cols_lst (data : PatchSessionRequest) : list string :=
  split comma (session_update_cols data).

Definition all_fields_lst (data : PatchSessionRequest) : list string :=
  set_order (list_to_set (session_update_cols_lst data) ∪ list_to_set _fields).

Definition all_fields (data : PatchSessionRequest) : string :=
  join ", " (all_fields_lst data).

Definition supplied (data : PatchSessionRequest) : list string :=
  (drop_None (update_data data)).*1.

Definition rest_fields_lst (data : PatchSessionRequest) : list string :=
  set_order (list_to_set (all_fields_lst data) ∖ list_to_set (supplied data)).

Definition rest_fields (data : PatchSessionRequest) : string :=
  join ", " (rest_fields_lst data).

(** Lines 90-108: the f-string, line by line. *)
Definition update_query_lines (data : PatchSessionRequest) : list string :=
  [ "";
    "        input[" +:+ session_update_cols data +:+ "] <- $session_update_vals";
    "        ids[session_id, developer_id] <- [[to_uuid($session_id), to_uuid($developer_id)]]";
    "        ";
    "        ?[" +:+ all_fields data +:+ ", metadata, updated_at] :=";
    "            input[" +:+ session_update_cols data +:+ "],";
    "            ids[session_id, developer_id],";
    "            *sessions{";
    "                " +:+ rest_fields data +:+ ", metadata: md, @ " +:+ dquote +:+ "END" +:+ dquote;
    "            },";
    "            updated_at = 'ASSERT',";
    "            metadata = concat(md, $metadata),";
    "";
    "        :put sessions {";
    "            " +:+ all_fields data +:+ ", metadata, updated_at";
    "        }";
    "";
    "        :returning";
    "    " ].

Definition update_query (data : PatchSessionRequest) : string :=
  join nl (update_query_lines data).

(** Lines 110-116. *)
Definition queries (session_id developer_id : UUID) (data : PatchSessionRequest)
  : list string :=
  [ verify_developer_id_query developer_id;
    verify_developer_owns_resource_query developer_id "sessions"
      [("session_id", session_id)];
    update_query data ].

(** Lines 120-125: the bound parameters. *)
Definition params (session_id developer_id : UUID) (data : PatchSessionRequest)
  : gmap string value :=
  {[ "session_update_vals" := session_update_vals data;
     "session_id" := VStr (uuid_str session_id);
     "developer_id" := VStr (uuid_str developer_id);
     "metadata" := metadata data ]}.

Definition patch_session (session_id developer_id : UUID) (data : PatchSessionRequest)
  : list string * gmap string value :=
  (queries session_id developer_id data, params session_id developer_id data).

(** The columns of [:put sessions { {all_fields}, metadata, updated_at }]. *)
Definition put_columns (data : PatchSessionRequest) : list string :=
  all_fields_lst data ++ ["metadata"; "updated_at"].

(** The fixed schema of the compiler: the columns of [_fields], the merged
    column and the validity column. *)
Definition schema_fields : list string := _fields ++ ["metadata"; "updated_at"].

(** *** How the intermediate values depend on the request *)

Lemma elem_of_set_order (s : gset string) (x : string) : x ∈ set_order s ↔ x ∈ s.
Proof using set_order_perm. by rewrite (set_order_perm s), elem_of_elements. Qed.

Lemma update_data_del data : update_data data = dict_del "metadata" data.
Proof. apply dict_pop_rest. Qed.

Lemma metadata_lookup data :
  metadata data = py_or (default (VDict ∅) (dict_get "metadata" data)) (VDict ∅).
Proof. unfold metadata. by rewrite dict_pop_value. Qed.

Lemma supplied_in_request data k : k ∈ supplied data → k ∈ data.*1.
Proof.
  unfold supplied. intros Hk%drop_None_keys.
  rewrite update_data_del in Hk. by apply dict_del_keys in Hk.
Qed.

Lemma session_update_cols_join data :
  session_update_cols data = join "," (supplied data).
Proof. done. Qed.

(** With a field supplied, the columns read back from the joined text are
    the supplied field names, in order. *)
Lemma session_update_cols_lst_supplied data :
  request_wf data → supplied data ≠ [] →
  session_update_cols_lst data = supplied data.
Proof.
  intros [_ Hnames] Hne. unfold session_update_cols_lst.
  rewrite session_update_cols_join. apply (split_join comma); [done|].
  rewrite Forall_forall in Hnames |- *.
  intros k Hk. by apply Hnames, supplied_in_request.
Qed.

(** With no field supplied, the joined text is empty and splitting it gives
    one column, the empty name. *)
Lemma session_update_cols_lst_none data :
  supplied data = [] → session_update_cols_lst data = [EmptyString].
Proof.
  intros Hnil. unfold session_update_cols_lst.
  by rewrite session_update_cols_join, Hnil.
Qed.

Lemma elem_of_all_fields_lst data c :
  c ∈ all_fields_lst data ↔ c ∈ session_update_cols_lst data ∨ c ∈ _fields.
Proof using set_order_perm.
  unfold all_fields_lst. rewrite elem_of_set_order, elem_of_union.
  by rewrite !elem_of_list_to_set.
Qed.

Lemma elem_of_rest_fields_lst data c :
  c ∈ rest_fields_lst data ↔ c ∈ all_fields_lst data ∧ c ∉ supplied data.
Proof using set_order_perm.
  unfold rest_fields_lst. rewrite elem_of_set_order, elem_of_difference.
  by rewrite !elem_of_list_to_set.
Qed.

Lemma elem_of_put_columns data c :
  c ∈ put_columns data ↔
  c ∈ all_fields_lst data ∨ c = "metadata" ∨ c = "updated_at".
Proof.
  unfold put_columns. rewrite elem_of_app, !elem_of_cons, elem_of_nil. tauto.
Qed.

(** The compiled statement and the list of carried-forward columns are
    functions of the supplied field names alone. *)
Lemma update_query_supplied data data' :
  supplied data' = supplied data → update_query data' = update_query data.
Proof.
  intros E.
  assert (session_update_cols data' = session_update_cols data) as Ec
    by (by rewrite !session_update_cols_join, E).
  assert (all_fields_lst data' = all_fields_lst data) as Ea
    by (unfold all_fields_lst, session_update_cols_lst; by rewrite Ec).
  assert (rest_fields_lst data' = rest_fields_lst data) as Er
    by (unfold rest_fields_lst; by rewrite Ea, E).
  unfold update_query, update_query_lines, all_fields, rest_fields.
  by rewrite Ec, Ea, Er.
Qed.

(** A field set to null leaves the same non-null fields and the same
    metadata patch as the request without the field. *)
Lemma null_field_update_data (before after : odict) (f : string) :
  NoDup (before ++ (f, VNone) :: after).*1 →
  drop_None (update_data (before ++ (f, VNone) :: after))
  = drop_None (update_data (before ++ after)).
Proof.
  rewrite !update_data_del.
  induction before as [|[k v] before IH]; simpl.
  - rewrite NoDup_cons. intros [Hf _]. destruct (decide (f = "metadata")) as [->|Hne].
    + by rewrite dict_del_absent.
    + apply drop_None_cons_None.
  - rewrite NoDup_cons. intros [_ Hnd]. destruct (decide (k = "metadata")).
    + by rewrite !drop_None_app, drop_None_cons_None.
    + unfold drop_None in *. rewrite !(filter_cons _ (k, v)).
      destruct (decide _); by rewrite IH.
Qed.

Lemma null_field_metadata (before after : odict) (f : string) :
  NoDup (before ++ (f, VNone) :: after).*1 →
  metadata (before ++ (f, VNone) :: after) = metadata (before ++ after).
Proof.
  rewrite !metadata_lookup.
  induction before as [|[k v] before IH]; simpl.
  - rewrite NoDup_cons. intros [Hf _]. destruct (decide (f = "metadata")) as [->|Hne]; [|done].
    apply dict_get_None in Hf. by rewrite Hf.
  - rewrite NoDup_cons. intros [_ Hnd]. destruct (decide (k = "metadata")); [done|].
    by apply IH.
Qed.

(** *** The claims about the compiler *)

(** C2, as amended. Whatever subset of fields is supplied, every column of
    the fixed schema ([_fields], [metadata], [updated_at]) is among the
    columns of the emitted [:put]; the overwritten columns ([supplied]) and
    the carried-forward ones ([rest_fields_lst]) are disjoint and together
    are [all_fields_lst]; and when at least one field is supplied, the
    columns of the [:put] are the supplied columns together with the fixed
    schema: a supplied column outside the schema is added to it. *)
Theorem put_columns_complete (data : PatchSessionRequest) :
  request_wf data →
  (∀ c, c ∈ schema_fields → c ∈ put_columns data)
  ∧ (∀ c, c ∈ supplied data → c ∉ rest_fields_lst data)
  ∧ (∀ c, c ∈ all_fields_lst data ↔ c ∈ supplied data ∨ c ∈ rest_fields_lst data)
  ∧ (supplied data ≠ [] →
     ∀ c, c ∈ put_columns data ↔ c ∈ supplied data ∨ c ∈ schema_fields).
Proof using set_order_perm.
  intros Hwf.
  assert (∀ c, c ∈ supplied data → c ∈ all_fields_lst data) as Hsub.
  { intros c Hc. apply elem_of_all_fields_lst. left.
    rewrite session_update_cols_lst_supplied; [done..|].
    intros E. rewrite E in Hc. set_solver. }
  split; [|split; [|split]].
  - intros c. unfold schema_fields.
    rewrite elem_of_app, elem_of_put_columns, elem_of_all_fields_lst. set_solver.
  - intros c Hc. rewrite elem_of_rest_fields_lst. tauto.
  - intros c. rewrite elem_of_rest_fields_lst.
    destruct (decide (c ∈ supplied data)); naive_solver.
  - intros Hne c. rewrite elem_of_put_columns, elem_of_all_fields_lst.
    rewrite session_update_cols_lst_supplied by done.
    unfold schema_fields. set_solver.
Qed.

(** C3. Null filtering. A request in which the field [f] is present and
    null compiles to the very statements and bound parameters of the request
    without [f], and [f] is not among the overwritten columns. *)
Theorem null_field_same_as_absent (session_id developer_id : UUID)
    (before after : odict) (f : string) :
  NoDup (before ++ (f, VNone) :: after).*1 →
  patch_session session_id developer_id (before ++ (f, VNone) :: after)
  = patch_session session_id developer_id (before ++ after)
  ∧ (f ∉ supplied (before ++ (f, VNone) :: after)).
Proof.
  intros Hnd.
  pose proof (null_field_update_data before after f Hnd) as Hu.
  pose proof (null_field_metadata before after f Hnd) as Hm.
  assert (supplied (before ++ (f, VNone) :: after) = supplied (before ++ after)) as Hs
    by (unfold supplied; by rewrite Hu).
  split.
  - unfold patch_session, queries, params, session_update_vals.
    by rewrite (update_query_supplied _ _ Hs), Hu, Hm.
  - rewrite Hs. intros Hf%supplied_in_request.
    rewrite fmap_app, fmap_cons in Hnd. simpl in Hnd.
    apply NoDup_app in Hnd as (_ & Hdisj & [Hnotin _]%NoDup_cons).
    rewrite fmap_app, elem_of_app in Hf. destruct Hf as [Hf|Hf]; [|done].
    apply (Hdisj f Hf). left.
Qed.

(** C4, on the code. With no field supplied (an empty request, or one whose
    fields are all null) the joined column text is empty, splitting it yields
    the one column [""], and that empty name is among the carried-forward
    columns and the columns of the [:put], though it is no column of the
    schema; the statement opens with [input[] <- $session_update_vals]. *)
Theorem touch_update_names_an_empty_column (data : PatchSessionRequest) :
  supplied data = [] →
  session_update_cols data = ""
  ∧ session_update_cols_lst data = [""]
  ∧ "" ∈ rest_fields_lst data
  ∧ "" ∈ put_columns data
  ∧ ("" ∉ schema_fields)
  ∧ update_query_lines data !! 1%nat = Some "        input[] <- $session_update_vals".
Proof using set_order_perm.
  intros Hnil.
  assert (session_update_cols data = "") as Hc
    by (by rewrite session_update_cols_join, Hnil).
  pose proof (session_update_cols_lst_none data Hnil) as Hl.
  assert ("" ∈ all_fields_lst data) as Hall
    by (apply elem_of_all_fields_lst; left; rewrite Hl; set_solver).
  repeat split; try done.
  - apply elem_of_rest_fields_lst. split; [done|]. rewrite Hnil. set_solver.
  - apply elem_of_put_columns. by left.
  - unfold schema_fields, _fields. set_solver.
  - unfold update_query_lines. simpl. by rewrite Hc.
Qed.

(** C5. Authorization before mutation. The statement list is the
    actor-existence check, then the ownership check, then the mutation, and
    nothing else; run as one transaction, the mutation runs only on the state
    both checks left, and a check that fails ends the transaction with the
    store as it was. *)
Theorem authorization_before_mutation {DB Rows : Type}
    (run_statement : string → gmap string value → DB → option (Rows * DB))
    (session_id developer_id : UUID) (data : PatchSessionRequest) (db : DB) :
  let check_actor := verify_developer_id_query developer_id in
  let check_owner :=
    verify_developer_owns_resource_query developer_id "sessions"
      [("session_id", session_id)] in
  let compiled := patch_session session_id developer_id data in
  compiled.1 = [check_actor; check_owner; update_query data]
  ∧ head compiled.1 = Some check_actor
  ∧ compiled.1 !! 1%nat = Some check_owner
  ∧ last compiled.1 = Some (update_query data)
  ∧ run_transaction run_statement compiled.1 compiled.2 db
    = match run_statement check_actor compiled.2 db with
      | None => (None, db)
      | Some (_, db1) =>
          match run_statement check_owner compiled.2 db1 with
          | None => (None, db)
          | Some (_, db2) =>
              match run_statement (update_query data) compiled.2 db2 with
              | None => (None, db)
              | Some (rows, db3) => (Some (Some rows), db3)
              end
          end
      end.
Proof.
  intros check_actor check_owner compiled.
  repeat (split; [reflexivity|]).
  unfold run_transaction. simpl.
  fold check_actor check_owner.
  destruct (run_statement check_actor _ db) as [[rows1 db1]|]; [|done].
  destruct (run_statement check_owner _ db1) as [[rows2 db2]|]; [|done].
  by destruct (run_statement (update_query data) _ db2) as [[rows3 db3]|].
Qed.


End PatchSession.

(** ** The claims about the projection and the exception table *)

(** C7. The projection of a result row. For a row of the store (it has a
    [session_id], its [updated_at] is a sequence, and it has no column
    named [id] or [jobs]), the projected mapping has [id] equal to the row's
    [session_id], [updated_at] equal to the first element of the sequence
    and not the sequence, [jobs] equal to the empty list, and every other
    column of the row with the row's value; it has no further key. *)
Theorem transform_projects_row (d : gmap string value) (sid t : value)
    (more : list value) :
  d !! "session_id" = Some sid →
  d !! "updated_at" = Some (VList (t :: more)) →
  d !! "id" = None →
  d !! "jobs" = None →
  ∃ out, transform d = Ok out
    ∧ out !! "id" = Some sid
    ∧ out !! "updated_at" = Some t
    ∧ out !! "jobs" = Some (VList [])
    ∧ (∀ k v, k ≠ "updated_at" → d !! k = Some v → out !! k = Some v)
    ∧ dom out = {[ "id"; "jobs" ]} ∪ dom d.
Proof.
  intros Hsid Hupd Hid Hjobs. unfold transform. rewrite Hsid, Hupd. simpl.
  eexists. split; [reflexivity|].
  split; [|split; [|split; [|split]]].
  - apply lookup_union_Some_raw. right.
    split; [by rewrite lookup_delete_ne|]. by rewrite lookup_insert_eq.
  - apply lookup_union_Some_raw. right.
    split; [by rewrite lookup_delete_eq|].
    rewrite lookup_insert_ne by done. by rewrite lookup_insert_eq.
  - apply lookup_union_Some_raw. right.
    split; [by rewrite lookup_delete_ne|].
    rewrite !lookup_insert_ne by done. by rewrite lookup_singleton_eq.
  - intros k v Hk Hv. apply lookup_union_Some_l. by rewrite lookup_delete_ne.
  - rewrite dom_union_L, dom_delete_L, !dom_insert_L, dom_singleton_L.
    assert ("updated_at" ∈ dom d) by (apply elem_of_dom; eauto).
    apply set_eq. intros k. destruct (decide (k = "updated_at")); set_solver.
Qed.

(** C10. The projection keeps [session_id]. For a row with a [session_id],
    an [updated_at] that can be subscripted and no column named [id], the
    projected mapping is the row without [updated_at], spread over the
    three new entries: it holds [session_id] and [id], both with the row's
    [session_id]; every column of the row but [updated_at] is in it with
    its value; [updated_at] alone is replaced. *)
Theorem transform_keeps_session_id (d : gmap string value) (sid u u0 : value) :
  d !! "session_id" = Some sid →
  d !! "updated_at" = Some u →
  subscript0 u = Ok u0 →
  d !! "id" = None →
  ∃ out, transform d = Ok out
    ∧ out = delete "updated_at" d
            ∪ {[ "id" := sid; "updated_at" := u0; "jobs" := VList [] ]}
    ∧ out !! "session_id" = Some sid
    ∧ out !! "id" = Some sid
    ∧ (∀ k, k ≠ "updated_at" → is_Some (d !! k) → out !! k = d !! k)
    ∧ out !! "updated_at" = Some u0.
Proof.
  intros Hsid Hupd Hsub Hid. unfold transform. rewrite Hsid, Hupd, Hsub. simpl.
  eexists. split; [reflexivity|]. split; [reflexivity|].
  split; [|split; [|split]].
  - apply lookup_union_Some_l. by rewrite lookup_delete_ne.
  - apply lookup_union_Some_raw. right.
    split; [by rewrite lookup_delete_ne|]. by rewrite lookup_insert_eq.
  - intros k Hk [v Hv]. rewrite Hv.
    apply lookup_union_Some_l. by rewrite lookup_delete_ne.
  - apply lookup_union_Some_raw. right.
    split; [by rewrite lookup_delete_eq|].
    rewrite lookup_insert_ne by done. by rewrite lookup_insert_eq.
Qed.

(** ** The theorems at concrete requests and rows

    One admissible instance of the parameters: UUIDs as their text, the two
    authorization statements as opaque texts, and [elements] as the order in
    which a set is listed. *)

Definition example_verify_developer (developer_id : string) : string :=
  "check developer " +:+ developer_id.

Definition example_verify_owner (developer_id resource : string)
    (ids : list (string * string)) : string :=
  "check " +:+ resource +:+ " of " +:+ developer_id.

Definition example_compile : string → string → PatchSessionRequest
    → list string * gmap string value :=
  patch_session string id example_verify_developer example_verify_owner elements.

Lemma elements_order (s : gset string) : elements s ≡ₚ elements s.
Proof. reflexivity. Qed.

(** A request that sets [situation], sets [summary] to null and patches the
    metadata. *)
Definition example_request : PatchSessionRequest :=
  [ ("situation", VStr "Answer briefly");
    ("summary", VNone);
    ("metadata", VDict {[ "team" := VStr "ops" ]}) ].

(** A request that sets a field outside [_fields]. *)
Definition example_budget_request : PatchSessionRequest :=
  [ ("token_budget", VInt 1024) ].

(** A row as [:returning] gives it back: the columns of the [:put], the
    validity as a sequence. *)
Definition example_row : gmap string value :=
  {[ "session_id" := VStr "s-1";
     "developer_id" := VStr "d-1";
     "situation" := VStr "Answer briefly";
     "summary" := VNone;
     "created_at" := VInt 1700000000;
     "metadata" := VDict {[ "team" := VStr "ops" ]};
     "updated_at" := VList [VInt 1700000600] ]}.

(** The statement compiled for [example_request], line by line. *)
Example example_update_query :
  update_query_lines elements example_request
  = [ "";
      "        input[situation] <- $session_update_vals";
      "        ids[session_id, developer_id] <- [[to_uuid($session_id), to_uuid($developer_id)]]";
      "        ";
      "        ?[summary, session_id, situation, created_at, developer_id, metadata, updated_at] :=";
      "            input[situation],";
      "            ids[session_id, developer_id],";
      "            *sessions{";
      "                summary, session_id, created_at, developer_id, metadata: md, @ "
        +:+ dquote +:+ "END" +:+ dquote;
      "            },";
      "            updated_at = 'ASSERT',";
      "            metadata = concat(md, $metadata),";
      "";
      "        :put sessions {";
      "            summary, session_id, situation, created_at, developer_id, metadata, updated_at";
      "        }";
      "";
      "        :returning";
      "    " ].
Proof. vm_compute. reflexivity. Qed.

Lemma put_columns_complete_witness :
  (∀ c, c ∈ schema_fields → c ∈ put_columns elements example_request)
  ∧ (∀ c, c ∈ supplied example_request → c ∉ rest_fields_lst elements example_request)
  ∧ (∀ c, c ∈ all_fields_lst elements example_request
          ↔ c ∈ supplied example_request ∨ c ∈ rest_fields_lst elements example_request)
  ∧ (supplied example_request ≠ [] →
     ∀ c, c ∈ put_columns elements example_request
          ↔ c ∈ supplied example_request ∨ c ∈ schema_fields).
Proof.
  apply (put_columns_complete elements elements_order example_request).
  unfold request_wf. compute_done.
Defined.

(** C2, as stated, fails: for a request that supplies [token_budget], the
    set of the columns of the [:put] is not the set of the schema's columns,
    since it holds [token_budget]; nor is it the set of the columns compiled
    for [example_request], so no one set is the set of the [:put] columns of
    every request. *)
Lemma put_columns_exceed_schema :
  "token_budget" ∈ put_columns elements example_budget_request
  ∧ ("token_budget" ∉ schema_fields)
  ∧ (list_to_set (put_columns elements example_budget_request) : gset string)
    ≠ list_to_set schema_fields
  ∧ (list_to_set (put_columns elements example_budget_request) : gset string)
    ≠ list_to_set (put_columns elements example_request).
Proof.
  assert ("token_budget" ∈ put_columns elements example_budget_request) as Hin
    by compute_done.
  assert ("token_budget" ∉ schema_fields) as Hout by compute_done.
  assert ("token_budget" ∉ put_columns elements example_request) as Hother
    by compute_done.
  split; [done|]. split; [done|]. split.
  - intros E. apply Hout.
    apply (proj1 (elem_of_list_to_set (C:=gset string) _ _)).
    rewrite <-E. exact (proj2 (elem_of_list_to_set (C:=gset string) _ _) Hin).
  - intros E. apply Hother.
    apply (proj1 (elem_of_list_to_set (C:=gset string) _ _)).
    rewrite <-E. exact (proj2 (elem_of_list_to_set (C:=gset string) _ _) Hin).
Qed.

Lemma null_field_same_as_absent_witness :
  example_compile "s-1" "d-1"
    ([("situation", VStr "Answer briefly")] ++ ("summary", VNone)
       :: [("metadata", VDict {[ "team" := VStr "ops" ]})])
  = example_compile "s-1" "d-1"
      ([("situation", VStr "Answer briefly")]
         ++ [("metadata", VDict {[ "team" := VStr "ops" ]})])
  ∧ ("summary" ∉ supplied
       ([("situation", VStr "Answer briefly")] ++ ("summary", VNone)
          :: [("metadata", VDict {[ "team" := VStr "ops" ]})])).
Proof.
  apply (null_field_same_as_absent string id example_verify_developer
           example_verify_owner elements "s-1" "d-1"
           [("situation", VStr "Answer briefly")]
           [("metadata", VDict {[ "team" := VStr "ops" ]})] "summary").
  compute_done.
Defined.

Lemma touch_update_names_an_empty_column_witness :
  session_update_cols [] = ""
  ∧ session_update_cols_lst [] = [""]
  ∧ "" ∈ rest_fields_lst elements []
  ∧ "" ∈ put_columns elements []
  ∧ ("" ∉ schema_fields)
  ∧ update_query_lines elements [] !! 1%nat
    = Some "        input[] <- $session_update_vals".
Proof.
  apply (touch_update_names_an_empty_column elements elements_order []).
  reflexivity.
Defined.


Lemma transform_projects_row_witness :
  ∃ out, transform example_row = Ok out
    ∧ out !! "id" = Some (VStr "s-1")
    ∧ out !! "updated_at" = Some (VInt 1700000600)
    ∧ out !! "jobs" = Some (VList [])
    ∧ (∀ k v, k ≠ "updated_at" → example_row !! k = Some v → out !! k = Some v)
    ∧ dom out = {[ "id"; "jobs" ]} ∪ dom example_row.
Proof.
  apply (transform_projects_row example_row (VStr "s-1") (VInt 1700000600) []);
    reflexivity.
Defined.

Lemma transform_keeps_session_id_witness :
  ∃ out, transform example_row = Ok out
    ∧ out = delete "updated_at" example_row
            ∪ {[ "id" := VStr "s-1"; "updated_at" := VInt 1700000600;
                 "jobs" := VList [] ]}
    ∧ out !! "session_id" = Some (VStr "s-1")
    ∧ out !! "id" = Some (VStr "s-1")
    ∧ (∀ k, k ≠ "updated_at" → is_Some (example_row !! k) → out !! k = example_row !! k)
    ∧ out !! "updated_at" = Some (VInt 1700000600).
Proof.
  apply (transform_keeps_session_id example_row (VStr "s-1")
           (VList [VInt 1700000600]) (VInt 1700000600)); reflexivity.
Defined.


(** ** Further properties of the projection *)

(** Whether [v[0]] is defined: a sequence or a string that is not empty. *)
Definition subscriptable0 (v : value) : Prop :=
  (∃ x l, v = VList (x :: l)) ∨ (∃ a s, v = VStr (String a s)).

Lemma subscript0_Ok (v : value) : (∃ x, subscript0 v = Ok x) ↔ subscriptable0 v.
Proof.
  unfold subscriptable0. split.
  - intros [x Hx]. destruct v as [| | |[|a s]|[|y l]|]; simpl in Hx; try discriminate.
    + right. eauto.
    + left. eauto.
  - intros [(x & l & ->)|(a & s & ->)]; simpl; eauto.
Qed.

(** X1. The projection returns exactly on the rows that have a
    [session_id] and an [updated_at] whose value is a sequence or a string
    that is not empty; on every other row it raises. *)
Theorem transform_returns_iff (d : gmap string value) :
  (∃ out, transform d = Ok out)
  ↔ is_Some (d !! "session_id")
    ∧ ∃ u, d !! "updated_at" = Some u ∧ subscriptable0 u.
Proof.
  unfold transform. split.
  - intros [out Hout].
    destruct (d !! "session_id") as [sid|]; [|discriminate].
    destruct (d !! "updated_at") as [u|]; [|discriminate].
    split; [eauto|]. exists u. split; [done|].
    apply subscript0_Ok. destruct (subscript0 u); [eauto|discriminate].
  - intros [[sid ->] (u & -> & [x Hx]%subscript0_Ok)]. rewrite Hx. eauto.
Qed.

(** X2. The class of the exception the projection raises: [KeyError] for a
    row without [session_id] (looked up first) or without [updated_at],
    [IndexError] for an [updated_at] that is an empty sequence or string,
    [KeyError] for one that is a mapping, [TypeError] for one that is
    [None], a boolean or a number. *)
Theorem transform_raises (d : gmap string value) (e : exn) :
  transform d = Raise e →
  exn_cls e
  = match d !! "session_id", d !! "updated_at" with
    | None, _ => KeyError
    | Some _, None => KeyError
    | Some _, Some (VList _) => IndexError
    | Some _, Some (VStr _) => IndexError
    | Some _, Some (VDict _) => KeyError
    | Some _, Some (VNone | VBool _ | VInt _) => TypeError
    end.
Proof.
  unfold transform.
  destruct (d !! "session_id") as [sid|]; [|by intros [= <-]].
  destruct (d !! "updated_at") as [u|]; [|by intros [= <-]].
  destruct u as [| | |[|a s]|[|y l]|]; simpl; by intros [= <-].
Qed.

(** X3. Of the failures of the projection, the exception table lists only
    the [TypeError] of an [updated_at] that cannot be subscripted: a missing
    column or an empty sequence raises a class the table does not name. *)
Theorem transform_failure_listed (d : gmap string value) (e : exn) :
  transform d = Raise e →
  exn_cls e ∈ exception_table.*1
  ↔ is_Some (d !! "session_id")
    ∧ ∃ u, d !! "updated_at" = Some u
           ∧ (u = VNone ∨ (∃ b, u = VBool b) ∨ (∃ n, u = VInt n)).
Proof.
  intros Hraise. rewrite (transform_raises d e Hraise). clear Hraise.
  assert (∀ c, c ∈ exception_table.*1
               ↔ c = QueryException ∨ c = ValidationError ∨ c = TypeError) as Htab.
  { intros c. unfold exception_table. simpl.
    rewrite !elem_of_cons, elem_of_nil. tauto. }
  rewrite Htab.
  destruct (d !! "session_id") as [sid|].
  - destruct (d !! "updated_at") as [u|].
    + destruct u; (split; [intros [?|[?|?]]; try discriminate|]);
        try (intros [_ (u' & [= <-] & [?|[[? ?]|[? ?]]])]; discriminate);
        try (split; [eauto|]; eexists; split; [done|]; eauto);
        try (intros _; auto).
    + split; [intros [?|[?|?]]; discriminate|].
      by intros [_ (u & ? & _)].
  - split; [intros [?|[?|?]]; discriminate|].
    by intros [[? ?] _].
Qed.

(** X4. What the row spreads wins. On every row on which the projection
    returns, each column of the row other than [updated_at] is in the result
    with the row's value, a column named [id] or [jobs] included: the
    result's [id] is the row's [session_id] only if the row has no [id]
    column. The result's [updated_at] is never the row's own value but its
    first element, and the result has the keys of the row and [id] and
    [jobs]. *)
Theorem transform_spread_wins (d out : gmap string value) :
  transform d = Ok out →
  (∀ k v, k ≠ "updated_at" → d !! k = Some v → out !! k = Some v)
  ∧ (∀ v, d !! "id" = Some v → out !! "id" = Some v)
  ∧ (d !! "id" = None → out !! "id" = d !! "session_id")
  ∧ (d !! "jobs" = None → out !! "jobs" = Some (VList []))
  ∧ (∃ u u0, d !! "updated_at" = Some u ∧ subscript0 u = Ok u0
             ∧ out !! "updated_at" = Some u0)
  ∧ dom out = {[ "id"; "jobs" ]} ∪ dom d.
Proof.
  unfold transform.
  destruct (d !! "session_id") as [sid|] eqn:Hsid; [|discriminate].
  destruct (d !! "updated_at") as [u|] eqn:Hupd; [|discriminate].
  destruct (subscript0 u) as [u0|] eqn:Hsub; [|discriminate].
  intros [= <-].
  assert (∀ k v, k ≠ "updated_at" → d !! k = Some v
                 → (delete "updated_at" d
                    ∪ {[ "id" := sid; "updated_at" := u0; "jobs" := VList [] ]})
                   !! k = Some v) as Hspread.
  { intros k v Hk Hv. apply lookup_union_Some_l. by rewrite lookup_delete_ne. }
  assert ((delete "updated_at" d
           ∪ {[ "id" := sid; "updated_at" := u0; "jobs" := VList [] ]})
          !! "updated_at" = Some u0) as Hu0.
  { apply lookup_union_Some_raw. right.
    split; [by rewrite lookup_delete_eq|].
    rewrite lookup_insert_ne by done. by rewrite lookup_insert_eq. }
  split; [done|]. split; [intros v; by apply Hspread|].
  split; [|split; [|split]].
  - intros Hid. apply lookup_union_Some_raw. right.
    split; [by rewrite lookup_delete_ne|]. by rewrite lookup_insert_eq.
  - intros Hjobs. apply lookup_union_Some_raw. right.
    split; [by rewrite lookup_delete_ne|].
    rewrite !lookup_insert_ne by done. by rewrite lookup_singleton_eq.
  - by exists u, u0.
  - rewrite dom_union_L, dom_delete_L, !dom_insert_L, dom_singleton_L.
    assert ("updated_at" ∈ dom d) by (apply elem_of_dom; eauto).
    apply set_eq. intros k. destruct (decide (k = "updated_at")); set_solver.
Qed.

(** ** Further properties of the compiler *)

(** The test of lines 72-75 taken together: the entry is kept when it is
    not the metadata and its value is not null. *)
Definition overwrites (kv : string * value) : Prop :=
  kv.1 ≠ "metadata" ∧ is_None kv.2 = false.

#[global] Instance overwrites_dec kv : Decision (overwrites kv).
Proof. unfold overwrites. apply _. Defined.

Section MorePatchSession.
#[local] Set Default Proof Using "Type".

Variable set_order : gset string → list string.
Hypothesis set_order_perm : ∀ s, set_order s ≡ₚ elements s.

Implicit Types (data : PatchSessionRequest) (c k : string).

Lemma filter_overwrites_absent (d : odict) :
  "metadata" ∉ d.*1 → filter overwrites d = drop_None d.
Proof.
  unfold drop_None. induction d as [|[k v] d IH]; [done|].
  rewrite fmap_cons, not_elem_of_cons. simpl. intros [Hk Hd].
  rewrite (filter_cons overwrites), (filter_cons (λ kv, is_None kv.2 = false)).
  rewrite (IH Hd).
  destruct (decide (overwrites (k, v))) as [[_ Hv]|Hno];
    destruct (decide (is_None (k, v).2 = false)) as [Hv'|Hv']; simpl in *;
    try done.
  exfalso. apply Hno. split; [simpl; congruence | done].
Qed.

Lemma drop_None_update_data data :
  NoDup data.*1 → drop_None (update_data data) = filter overwrites data.
Proof.
  rewrite update_data_del. induction data as [|[k v] data IH]; [done|].
  rewrite fmap_cons, NoDup_cons. simpl. intros [Hk Hnd].
  rewrite (filter_cons overwrites).
  destruct (decide (k = "metadata")) as [->|Hne].
  - destruct (decide (overwrites ("metadata", v))) as [[Hbad _]|_]; [done|].
    by rewrite filter_overwrites_absent.
  - unfold drop_None in *.
    rewrite (filter_cons (λ kv, is_None kv.2 = false)), (IH Hnd).
    destruct (decide (overwrites (k, v))) as [[_ Hv]|Hno];
      destruct (decide (is_None (k, v).2 = false)) as [Hv'|Hv']; simpl in *;
      try done.
    exfalso. apply Hno. split; done.
Qed.

Lemma dict_get_elem_of (d : odict) k (v : value) :
  NoDup d.*1 → (k, v) ∈ d → dict_get k d = Some v.
Proof.
  induction d as [|[k' v'] d IH]; [by intros _ ?%elem_of_nil|].
  rewrite fmap_cons, NoDup_cons, elem_of_cons. simpl. intros [Hk' Hnd] [[= -> ->]|Hin].
  - by rewrite decide_True.
  - rewrite decide_False; [by apply IH|].
    intros ->. apply Hk'. apply list_elem_of_fmap. by exists (k, v).
Qed.

Lemma metadata_not_column data :
  request_wf data → "metadata" ∉ all_fields_lst set_order data.
Proof using set_order_perm.
  intros Hwf. rewrite (elem_of_all_fields_lst set_order set_order_perm).
  intros [Hin|Hin]; [|unfold _fields in Hin; set_solver].
  destruct (decide (supplied data = [])) as [Hnil|Hne].
  - rewrite (session_update_cols_lst_none data Hnil) in Hin. set_solver.
  - rewrite session_update_cols_lst_supplied in Hin by done.
    unfold supplied in Hin. apply drop_None_keys in Hin.
    rewrite update_data_del in Hin. apply dict_del_gone in Hin; [done|].
    by destruct Hwf.
Qed.

Lemma set_order_NoDup (s : gset string) : NoDup (set_order s).
Proof using set_order_perm. rewrite (set_order_perm s). apply NoDup_elements. Qed.

Lemma supplied_is_filter_aux data :
  NoDup data.*1 →
  supplied data = (filter overwrites data).*1
  ∧ session_update_vals data = VList [VList (filter overwrites data).*2].
Proof.
  intros Hnd. unfold supplied, session_update_vals. simpl.
  by rewrite (drop_None_update_data data Hnd).
Qed.

(** X5. The overwritten columns are the fields of the request, in the
    request's order, that are not the metadata and are not null; the one
    bound row holds their values in the same order. *)
Theorem supplied_is_filter data :
  NoDup data.*1 →
  supplied data = (filter overwrites data).*1
  ∧ session_update_vals data = VList [VList (filter overwrites data).*2]
  ∧ supplied data `sublist_of` data.*1.
Proof.
  intros Hnd. unfold supplied, session_update_vals. simpl.
  rewrite (drop_None_update_data data Hnd).
  split; [done|]. split; [done|].
  apply fmap_sublist, sublist_filter.
Qed.

(** X6. The input relation lines up with the bound row. The row has one
    value per overwritten field and no null; with a field supplied, the
    column list read back from the joined text has the length of the row and
    its [i]-th column is bound to the value the request gives that field;
    with none supplied, the column list has one column and the row none. *)
Theorem input_columns_match_row data :
  request_wf data →
  ∃ row, session_update_vals data = VList [VList row]
    ∧ length row = length (supplied data)
    ∧ Forall (λ v, is_None v = false) row
    ∧ (length (session_update_cols_lst data) = length row ↔ supplied data ≠ [])
    ∧ (supplied data ≠ [] →
       ∀ i k v, session_update_cols_lst data !! i = Some k → row !! i = Some v →
                dict_get k data = Some v ∧ k ≠ "metadata").
Proof.
  intros Hwf. pose proof Hwf as [Hnd _].
  destruct (supplied_is_filter_aux data Hnd) as (Hs & Hv).
  exists (filter overwrites data).*2.
  split; [done|]. split; [by rewrite Hs, !length_fmap|]. split; [|split].
  - apply Forall_fmap, Forall_forall. intros kv Hkv.
    apply list_elem_of_filter in Hkv as [[_ Hnn] _]. exact Hnn.
  - split.
    + intros Hlen Hnil. rewrite (session_update_cols_lst_none data Hnil) in Hlen.
      rewrite Hs in Hnil. apply fmap_nil_inv in Hnil. by rewrite Hnil in Hlen.
    + intros Hne. rewrite session_update_cols_lst_supplied by done.
      by rewrite Hs, !length_fmap.
  - intros Hne i k v. rewrite session_update_cols_lst_supplied by done.
    rewrite Hs, !list_lookup_fmap.
    intros Hcol Hval.
    apply fmap_Some in Hcol as ([k' v'] & Hi & ->).
    rewrite Hi in Hval. simpl in Hval. injection Hval as <-.
    apply list_elem_of_lookup_2, list_elem_of_filter in Hi as [[Hk _] Hin].
    split; [|exact Hk]. apply dict_get_elem_of; [exact Hnd|exact Hin].
Qed.
Lemma filter_overwrites_nil (d : odict) :
  Forall (λ kv, kv.1 = "metadata" ∨ is_None kv.2 = true) d →
  filter overwrites d = [].
Proof.
  induction 1 as [|[k v] d Hkv _ IH]; [done|].
  rewrite filter_cons, IH.
  destruct (decide (overwrites (k, v))) as [[Hk Hv]|_]; [|done].
  simpl in *. destruct Hkv as [?|?]; [done|congruence].
Qed.

(** X7. The column list of the [:put] names no column twice, unless the
    request itself supplies [updated_at], which the statement then lists a
    second time. *)
Theorem put_columns_NoDup data :
  request_wf data →
  NoDup (put_columns set_order data) ↔ "updated_at" ∉ supplied data.
Proof using set_order_perm.
  intros Hwf. unfold put_columns. rewrite NoDup_app. split.
  - intros (_ & Hdisj & _) Hin. apply (Hdisj "updated_at"); [|set_solver].
    apply (elem_of_all_fields_lst set_order set_order_perm). left.
    rewrite session_update_cols_lst_supplied; [done..|].
    intros E. rewrite E in Hin. by apply elem_of_nil in Hin.
  - intros Hno. split; [apply set_order_NoDup|]. split.
    + intros c Hc. rewrite !elem_of_cons, elem_of_nil. intros [->|[->|[]]].
      * by apply (metadata_not_column data Hwf).
      * apply (elem_of_all_fields_lst set_order set_order_perm) in Hc as [Hc|Hc];
          [|unfold _fields in Hc; set_solver].
        destruct (decide (supplied data = [])) as [Hnil|Hne].
        -- rewrite (session_update_cols_lst_none data Hnil) in Hc. set_solver.
        -- by rewrite session_update_cols_lst_supplied in Hc.
    + apply NoDup_cons. split; [set_solver|]. apply NoDup_singleton.
Qed.

(** X8. The columns read from the open version are exactly the fields of
    [_fields] that the request does not overwrite (and the empty name when
    nothing is overwritten); none is listed twice, and a supplied column
    outside [_fields] is never read from the store. *)
Theorem rest_fields_exact data :
  request_wf data →
  NoDup (rest_fields_lst set_order data)
  ∧ ∀ c, c ∈ rest_fields_lst set_order data
         ↔ (c ∈ _fields ∧ c ∉ supplied data) ∨ (supplied data = [] ∧ c = "").
Proof using set_order_perm.
  intros Hwf. split; [apply set_order_NoDup|]. intros c.
  rewrite (elem_of_rest_fields_lst set_order set_order_perm).
  rewrite (elem_of_all_fields_lst set_order set_order_perm).
  destruct (decide (supplied data = [])) as [Hnil|Hne].
  - rewrite (session_update_cols_lst_none data Hnil), Hnil.
    rewrite elem_of_cons, !elem_of_nil. naive_solver.
  - rewrite session_update_cols_lst_supplied by done. naive_solver.
Qed.

(** X9. A request that sets nothing but the metadata and nulls overwrites
    no column: its mutation statement is, character for character, that of
    the empty request, and its bound row is empty. *)
Theorem metadata_only_request data :
  NoDup data.*1 →
  Forall (λ kv, kv.1 = "metadata" ∨ is_None kv.2 = true) data →
  supplied data = []
  ∧ update_query set_order data = update_query set_order []
  ∧ session_update_vals data = VList [VList []].
Proof.
  intros Hnd Hall.
  destruct (supplied_is_filter_aux data Hnd) as (Hs & Hv).
  assert (filter overwrites data = []) as Hnil
    by (by apply filter_overwrites_nil).
  rewrite Hnil in Hs, Hv.
  split; [done|]. split; [|done].
  by apply update_query_supplied.
Qed.

(** X10. When the request overwrites at least one field and only fields
    of [_fields], the columns of the [:put] are exactly the fixed schema. *)
Theorem put_columns_fixed_schema data :
  request_wf data →
  supplied data ≠ [] →
  supplied data ⊆ _fields →
  ∀ c, c ∈ put_columns set_order data ↔ c ∈ schema_fields.
Proof using set_order_perm.
  intros Hwf Hne Hsub c.
  rewrite elem_of_put_columns, (elem_of_all_fields_lst set_order set_order_perm).
  rewrite session_update_cols_lst_supplied by done.
  unfold schema_fields. rewrite elem_of_app, !elem_of_cons, elem_of_nil.
  specialize (Hsub c). naive_solver.
Qed.

End MorePatchSession.

(** ** The further properties at concrete rows and requests *)

(** A row that lacks the validity column, one whose validity is null, and
    one that has a column named [id]. *)
Definition example_row_no_validity : gmap string value :=
  delete "updated_at" example_row.

Definition example_row_null_validity : gmap string value :=
  <[ "updated_at" := VNone ]> example_row.

Definition example_row_with_id : gmap string value :=
  <[ "id" := VStr "row-id" ]> example_row.

(** A request that patches the metadata and nulls the summary. *)
Definition example_metadata_request : PatchSessionRequest :=
  [ ("metadata", VDict {[ "team" := VStr "ops" ]}); ("summary", VNone) ].

Lemma transform_raises_witness :
  exn_cls (Exn KeyError None "'updated_at'") = KeyError.
Proof.
  exact (transform_raises example_row_no_validity
           (Exn KeyError None "'updated_at'") eq_refl).
Defined.

Lemma transform_failure_listed_witness :
  TypeError ∈ exception_table.*1
  ↔ is_Some (example_row_null_validity !! "session_id")
    ∧ ∃ u, example_row_null_validity !! "updated_at" = Some u
           ∧ (u = VNone ∨ (∃ b, u = VBool b) ∨ (∃ n, u = VInt n)).
Proof.
  apply (transform_failure_listed example_row_null_validity
           (Exn TypeError None "'NoneType' object is not subscriptable")).
  reflexivity.
Defined.

(** What the projection returns on [example_row_with_id]. *)
Definition example_projected_with_id : gmap string value :=
  delete "updated_at" example_row_with_id
  ∪ {[ "id" := VStr "s-1"; "updated_at" := VInt 1700000600; "jobs" := VList [] ]}.

Lemma transform_spread_wins_witness :
  example_projected_with_id !! "id" = Some (VStr "row-id").
Proof.
  apply (transform_spread_wins example_row_with_id example_projected_with_id);
    reflexivity.
Defined.

Lemma supplied_is_filter_witness :
  supplied example_request = (filter overwrites example_request).*1
  ∧ session_update_vals example_request
    = VList [VList (filter overwrites example_request).*2]
  ∧ supplied example_request `sublist_of` example_request.*1.
Proof. apply (supplied_is_filter example_request). compute_done. Defined.

Lemma input_columns_match_row_witness :
  ∃ row, session_update_vals example_request = VList [VList row]
    ∧ length row = length (supplied example_request)
    ∧ Forall (λ v, is_None v = false) row
    ∧ (length (session_update_cols_lst example_request) = length row
       ↔ supplied example_request ≠ [])
    ∧ (supplied example_request ≠ [] →
       ∀ i k v, session_update_cols_lst example_request !! i = Some k →
                row !! i = Some v →
                dict_get k example_request = Some v ∧ k ≠ "metadata").
Proof.
  apply (input_columns_match_row example_request).
  unfold request_wf. compute_done.
Defined.

Lemma put_columns_NoDup_witness :
  NoDup (put_columns elements example_request)
  ↔ "updated_at" ∉ supplied example_request.
Proof.
  apply (put_columns_NoDup elements elements_order example_request).
  unfold request_wf. compute_done.
Defined.

Lemma rest_fields_exact_witness :
  NoDup (rest_fields_lst elements example_request)
  ∧ ∀ c, c ∈ rest_fields_lst elements example_request
         ↔ (c ∈ _fields ∧ c ∉ supplied example_request)
           ∨ (supplied example_request = [] ∧ c = "").
Proof.
  apply (rest_fields_exact elements elements_order example_request).
  unfold request_wf. compute_done.
Defined.

Lemma metadata_only_request_witness :
  supplied example_metadata_request = []
  ∧ update_query elements example_metadata_request = update_query elements []
  ∧ session_update_vals example_metadata_request = VList [VList []].
Proof.
  apply (metadata_only_request elements example_metadata_request);
    compute_done.
Defined.

Lemma put_columns_fixed_schema_witness :
  "token_budget" ∈ put_columns elements example_request
  ↔ "token_budget" ∈ schema_fields.
Proof.
  apply (put_columns_fixed_schema elements elements_order example_request).
  - unfold request_wf. compute_done.
  - compute_done.
  - compute_done.
Defined.

(** ** The statement text, the parameters and the exception table together *)

(** [needle] occurs in [text]. *)
Definition contains (text needle : string) : Prop :=
  ∃ before after, text = before +:+ needle +:+ after.

Lemma string_app_nil_r (a : string) : a +:+ "" = a.
Proof.
  induction a as [|c a IH]; [done|].
  change (String c a +:+ "") with (String c (a +:+ "")). by rewrite IH.
Qed.

Lemma string_app_assoc (a b c : string) : (a +:+ b) +:+ c = a +:+ (b +:+ c).
Proof.
  induction a as [|x a IH]; [done|].
  change ((String x a +:+ b) +:+ c) with (String x ((a +:+ b) +:+ c)).
  by rewrite IH.
Qed.

(** A string that was joined in occurs in the joined text. *)
Lemma contains_join (sep : string) (l : list string) (x : string) :
  x ∈ l → contains (join sep l) x.
Proof.
  induction l as [|y l IH]; [by intros ?%elem_of_nil|].
  destruct l as [|z r].
  - intros ->%list_elem_of_singleton. exists "", "".
    rewrite string_app_nil_r. reflexivity.
  - change (join sep (y :: z :: r)) with (y +:+ sep +:+ join sep (z :: r)).
    intros [->|Hin]%elem_of_cons.
    + by exists "", (sep +:+ join sep (z :: r)).
    + destruct (IH Hin) as (before & after & ->).
      exists (y +:+ sep +:+ before), after.
      by rewrite !string_app_assoc.
Qed.



Section StatementAndParameters.
#[local] Set Default Proof Using "Type".

Variable UUID : Type.
Variable uuid_str : UUID → string.
Variable verify_developer_id_query : UUID → string.
Variable verify_developer_owns_resource_query :
  UUID → string → list (string * UUID) → string.
Variable set_order : gset string → list string.
Hypothesis set_order_perm : ∀ s, set_order s ≡ₚ elements s.

(** [patch_session] at these parameters. *)
Let compile :=
  patch_session UUID uuid_str verify_developer_id_query
    verify_developer_owns_resource_query set_order.


(** C1, on the code. A request that patches the metadata and overwrites no
    other field: the map [new] is bound as the parameter [metadata], and
    the statement returned holds the merge
    [metadata = concat(md, $metadata)], but the statement is the one of the
    empty request, with [input[]] and the empty name among the columns of
    the [:put], so it is no statement that writes a version. *)
Theorem metadata_only_patch_is_malformed (session_id developer_id : UUID)
    (data : PatchSessionRequest) (new : gmap string value) :
  dict_get "metadata" data = Some (VDict new) →
  supplied data = [] →
  (compile session_id developer_id data).2 !! "metadata" = Some (VDict new)
  ∧ (compile session_id developer_id data).2 !! "session_update_vals"
    = Some (VList [VList []])
  ∧ (∃ q, last (compile session_id developer_id data).1 = Some q
          ∧ q = update_query set_order []
          ∧ contains q "            metadata = concat(md, $metadata),"
          ∧ contains q "        input[] <- $session_update_vals")
  ∧ "" ∈ put_columns set_order data
  ∧ ("" ∉ schema_fields).
Proof using set_order_perm.
  intros Hmd Hnil.
  assert (metadata data = VDict new) as Hm.
  { rewrite metadata_lookup, Hmd. simpl. unfold py_or.
    destruct (truthy (VDict new)) eqn:Ht; [done|].
    simpl in Ht. apply negb_false_iff, bool_decide_eq_true in Ht. by subst. }
  assert (session_update_vals data = VList [VList []]) as Hv.
  { unfold session_update_vals. simpl. unfold supplied in Hnil.
    apply fmap_nil_inv in Hnil. by rewrite Hnil. }
  assert (session_update_cols data = "") as Hc
    by (by rewrite session_update_cols_join, Hnil).
  split; [|split; [|split; [|split]]].
  - unfold compile, patch_session, params. simpl.
    rewrite !lookup_insert_ne by done. by rewrite lookup_singleton_eq, Hm.
  - unfold compile, patch_session, params. simpl.
    by rewrite lookup_insert_eq, Hv.
  - exists (update_query set_order data).
    split; [done|]. split; [by apply update_query_supplied|]. split.
    + apply contains_join. unfold update_query_lines.
      rewrite !elem_of_cons. tauto.
    + apply contains_join. unfold update_query_lines. rewrite Hc.
      rewrite !elem_of_cons. tauto.
  - apply elem_of_put_columns. left.
    apply (elem_of_all_fields_lst set_order set_order_perm). left.
    rewrite (session_update_cols_lst_none data Hnil). by left.
  - unfold schema_fields, _fields. rewrite elem_of_app, !elem_of_cons, !elem_of_nil.
    naive_solver.
Qed.


End StatementAndParameters.


(** ** These theorems at concrete requests and calls *)

(** The union example of the specification, sent as a request that patches
    nothing but the metadata. *)
Definition example_union_request : PatchSessionRequest :=
  [ ("metadata", VDict {[ "b" := VInt 2 ]}) ].


Lemma metadata_only_patch_is_malformed_witness :
  (example_compile "s-1" "d-1" example_union_request).2 !! "metadata"
  = Some (VDict {[ "b" := VInt 2 ]})
  ∧ (example_compile "s-1" "d-1" example_union_request).2 !! "session_update_vals"
    = Some (VList [VList []])
  ∧ (∃ q, last (example_compile "s-1" "d-1" example_union_request).1 = Some q
          ∧ q = update_query elements []
          ∧ contains q "            metadata = concat(md, $metadata),"
          ∧ contains q "        input[] <- $session_update_vals")
  ∧ "" ∈ put_columns elements example_union_request
  ∧ ("" ∉ schema_fields).
Proof.
  apply (metadata_only_patch_is_malformed string id example_verify_developer
           example_verify_owner elements elements_order "s-1" "d-1"
           example_union_request {[ "b" := VInt 2 ]}); reflexivity.
Defined.





